(** * Query routing of the audit intelligence application (src/app.py)

    A shallow embedding of the keyword classifier [_determine_intent], the
    agent selector [_get_relevant_agents] and the communication-log metrics
    of [_display_smart_response], all methods of [AuditIntelligenceApp],
    followed by the per-session status dictionary kept by [_create_sidebar],
    [_process_query] and [_process_smart_query], the form handlers and what
    the displays list.

    Text is modelled by [string] (8-bit characters).  [str.lower] is the
    ASCII folding A-Z to a-z; characters outside A-Z are left unchanged, so
    the model is exact for 7-bit queries.  All keywords of the program are
    7-bit lower-case text.  Module [Unicode] at the end models text as code
    points, for what depends on letter case beyond 7 bits, and is shown to
    agree with the 8-bit model on 7-bit text. *)

From Stdlib Require Import ZArith List Ascii String Bool Lia.
From stdpp Require Import base option gmap strings.
Import ListNotations.

Local Open Scope string_scope.
Local Open Scope list_scope.

(** ** Python string primitives *)

Module PyStr.

(** One character of [str.lower()]. *)
Definition lower_char (c : ascii) : ascii :=
  let n := N_of_ascii c in
  if ((65 <=? n) && (n <=? 90))%N then ascii_of_N (n + 32) else c.

(** One character of [str.upper()]. *)
Definition upper_char (c : ascii) : ascii :=
  let n := N_of_ascii c in
  if ((97 <=? n) && (n <=? 122))%N then ascii_of_N (n - 32) else c.

(** [s.lower()] *)
Fixpoint lower (s : string) : string :=
  match s with
  | EmptyString => EmptyString
  | String c s' => String (lower_char c) (lower s')
  end.

(** [s.upper()] *)
Fixpoint upper (s : string) : string :=
  match s with
  | EmptyString => EmptyString
  | String c s' => String (upper_char c) (upper s')
  end.

(** [s.startswith(w)] *)
Fixpoint startswith (w s : string) : bool :=
  match w, s with
  | EmptyString, _ => true
  | String _ _, EmptyString => false
  | String a w', String b s' => Ascii.eqb a b && startswith w' s'
  end.

(** [w in s] on two [str] values: [w] occurs at some offset of [s]. *)
Fixpoint contains (w s : string) : bool :=
  startswith w s ||
  match s with
  | EmptyString => false
  | String _ s' => contains w s'
  end.

(** [any(word in s for word in words)] *)
Definition any_in (words : list string) (s : string) : bool :=
  existsb (fun word => contains word s) words.

(** Specification of substring containment. *)
Definition occurs (w s : string) : Prop :=
  exists pre post, s = String.append pre (String.append w post).

End PyStr.

(** ** Facts on the string primitives *)

Section PyStrFacts.
Import PyStr.

Lemma append_cons (c : ascii) (a b : string) :
  String.append (String c a) b = String c (String.append a b).
Proof. reflexivity. Qed.

Lemma append_empty_r (s : string) : String.append s EmptyString = s.
Proof.
  induction s as [|c s IH]; [reflexivity | now rewrite append_cons, IH].
Qed.

Lemma append_assoc (a b c : string) :
  String.append (String.append a b) c = String.append a (String.append b c).
Proof.
  induction a as [|x a IH]; [reflexivity | now rewrite !append_cons, IH].
Qed.

Lemma startswith_spec (w s : string) :
  startswith w s = true <-> exists post, s = String.append w post.
Proof.
  revert s. induction w as [|a w IH]; intros s; simpl.
  - split; [intros _; exists s; reflexivity | reflexivity].
  - destruct s as [|b s].
    + split; [discriminate | intros [post H]; discriminate].
    + rewrite andb_true_iff, Ascii.eqb_eq, IH. split.
      * intros [-> [post ->]]. exists post. reflexivity.
      * intros [post H]. injection H as -> ->. split; [reflexivity | eauto].
Qed.

Lemma contains_spec (w s : string) :
  contains w s = true <-> occurs w s.
Proof.
  unfold occurs. induction s as [|b s IH].
  - simpl. rewrite orb_false_r, startswith_spec. split.
    + intros [post H]. exists EmptyString, post. exact H.
    + intros [[|c pre] [post H]]; [eauto | discriminate].
  - cbn [contains]. rewrite orb_true_iff, startswith_spec, IH. split.
    + intros [[post H] | [pre [post H]]].
      * exists EmptyString, post. exact H.
      * exists (String b pre), post. now rewrite append_cons, H.
    + intros [[|c pre] [post H]].
      * left. exists post. exact H.
      * right. injection H as -> ->. eauto.
Qed.

Lemma contains_false_spec (w s : string) :
  contains w s = false <-> ~ occurs w s.
Proof.
  rewrite <- contains_spec. destruct (contains w s); split; intros; congruence.
Qed.

Lemma any_in_spec (words : list string) (s : string) :
  any_in words s = true <-> exists w, In w words /\ occurs w s.
Proof.
  unfold any_in. rewrite existsb_exists.
  split; intros [w [Hin H]]; exists w; split; auto; now apply contains_spec.
Qed.

Lemma any_in_false_spec (words : list string) (s : string) :
  any_in words s = false <-> forall w, In w words -> ~ occurs w s.
Proof.
  split.
  - intros H w Hin Hocc.
    assert (any_in words s = true) by (apply any_in_spec; eauto). congruence.
  - intros H. destruct (any_in words s) eqn:E; [|reflexivity].
    apply any_in_spec in E as [w [Hin Hocc]]. now apply H in Hocc.
Qed.

Lemma lower_app (a b : string) :
  lower (String.append a b) = String.append (lower a) (lower b).
Proof.
  induction a as [|c a IH]; [reflexivity|].
  rewrite !append_cons. simpl. now rewrite IH, append_cons.
Qed.

Lemma lower_char_idem (c : ascii) : lower_char (lower_char c) = lower_char c.
Proof. destruct c as [[] [] [] [] [] [] [] []]; reflexivity. Qed.

Lemma lower_upper_char (c : ascii) : lower_char (upper_char c) = lower_char c.
Proof. destruct c as [[] [] [] [] [] [] [] []]; reflexivity. Qed.



Lemma occurs_app (w pre post : string) :
  occurs w (String.append pre (String.append w post)).
Proof. exists pre, post. reflexivity. Qed.

End PyStrFacts.

(** ** Python values held by the response dictionaries *)

Inductive pyval : Type :=
  | PyNone
  | PyStr (s : string)
  | PyInt (z : Z).

(** ** The methods of [AuditIntelligenceApp] *)

Module AuditIntelligenceApp.
Import PyStr.

(** The keyword lists of [_determine_intent], in the order tested. *)
Definition checklist_words : list string :=
  ["checklist"; "list"; "steps"; "procedures"].
Definition report_words : list string :=
  ["report"; "analysis"; "summary"; "overview"].
Definition insights_words : list string :=
  ["insights"; "trends"; "patterns"; "analysis"].

(** [_determine_intent(self, query)] *)
Definition _determine_intent (query : string) : string :=
  let query_lower := lower query in
  if any_in checklist_words query_lower then "checklist"
  else if any_in report_words query_lower then "report"
  else if any_in insights_words query_lower then "insights"
  else "general".

(** The keyword lists of [_get_relevant_agents], in the order tested. *)
Definition company_words : list string :=
  ["hovione"; "boehringer"; "thermo fisher"; "company"].
Definition audit_words : list string :=
  ["audit"; "compliance"; "checklist"].
Definition quality_words : list string :=
  ["quality"; "snc"; "deviation"].
Definition conference_words : list string :=
  ["conference"; "event"; "meeting"].
Definition web_words : list string :=
  ["fda"; "warning"; "due diligence"].

(** The list assigned when no rule has appended anything. *)
Definition all_agents : list string :=
  ["web_scraper"; "internal_audit"; "external_conference";
   "quality_systems"; "sop"].

(** [relevant_agents.extend(more)] guarded by a keyword test. *)
Definition extend_if (words : list string) (query_lower : string)
    (more relevant_agents : list string) : list string :=
  if any_in words query_lower then relevant_agents ++ more
  else relevant_agents.

(** [_get_relevant_agents(self, query, intent)]; [intent] is not read. *)
Definition _get_relevant_agents (query intent : string) : list string :=
  let query_lower := lower query in
  let relevant_agents := [] in
  let relevant_agents := relevant_agents ++ ["orchestrator"] in
  let relevant_agents :=
    extend_if company_words query_lower
      ["quality_systems"; "external_conference"] relevant_agents in
  let relevant_agents :=
    extend_if audit_words query_lower
      ["internal_audit"; "sop"] relevant_agents in
  let relevant_agents :=
    extend_if quality_words query_lower ["quality_systems"] relevant_agents in
  let relevant_agents :=
    extend_if conference_words query_lower
      ["external_conference"] relevant_agents in
  let relevant_agents :=
    extend_if web_words query_lower ["web_scraper"] relevant_agents in
  if (length relevant_agents <=? 1)%nat then all_agents
  else relevant_agents.

(** One entry of [response['agent_communications']]. *)
Abbreviation comm := (gmap string pyval).

(** [comm.get('status') == 'completed'] *)
Definition is_completed (c : comm) : bool :=
  match c !! "status" with
  | Some (PyStr s) => String.eqb s "completed"
  | _ => false
  end.

(** [comm.get('documents_found', 0)] *)
Definition documents_found (c : comm) : pyval :=
  default (PyInt 0) (c !! "documents_found").

(** [len([comm for comm in agent_communications
          if comm.get('status') == 'completed'])] *)
Definition successful_agents (agent_communications : list comm) : Z :=
  Z.of_nat (length (List.filter is_completed agent_communications)).

(** One step of [sum]: adding a value that is not a number raises
    [TypeError], modelled by [None]. *)
Definition py_add (acc : option Z) (v : pyval) : option Z :=
  match acc, v with
  | Some a, PyInt z => Some (a + z)%Z
  | _, _ => None
  end.

(** [sum(comm.get('documents_found', 0) for comm in agent_communications
        if comm.get('status') == 'completed')] *)
Definition total_docs (agent_communications : list comm) : option Z :=
  fold_left py_add
    (List.map documents_found (List.filter is_completed agent_communications))
    (Some 0%Z).

(** The three [st.metric] calls of the "Agent Communications" block of
    [_display_smart_response], as (label, value) pairs; the block is
    skipped for an empty log, and a [TypeError] in the sum aborts it. *)
Definition communication_metrics (agent_communications : list comm)
    : option (list (string * Z)) :=
  match agent_communications with
  | [] => Some []
  | _ :: _ =>
      match total_docs agent_communications with
      | Some docs =>
          Some [("Total Agents", Z.of_nat (length agent_communications));
                ("Successful", successful_agents agent_communications);
                ("Documents Found", docs)]
      | None => None
      end
  end.

End AuditIntelligenceApp.

(** ** Reference definitions used to state the properties *)

Module Spec.
Import PyStr AuditIntelligenceApp.

(** The closed set of intents. *)
Definition intents : list string :=
  ["checklist"; "report"; "insights"; "general"].

(** The keyword-trigger rules as a table: trigger words and agents added. *)
Definition trigger_rules : list (list string * list string) :=
  [ (company_words, ["quality_systems"; "external_conference"]);
    (audit_words, ["internal_audit"; "sop"]);
    (quality_words, ["quality_systems"]);
    (conference_words, ["external_conference"]);
    (web_words, ["web_scraper"]) ].

(** A rule fires when one of its words occurs in the lower-cased query. *)
Definition fires (r : list string * list string) (query : string) : Prop :=
  exists w, In w (fst r) /\ occurs w (lower query).

Definition some_rule_fires (query : string) : Prop :=
  exists r, In r trigger_rules /\ fires r query.

(** The five dispatchable agents, as opposed to the virtual marker. *)
Definition real_agent (a : string) : Prop := In a all_agents.



(** Number of log entries with status completed. *)
Fixpoint completed_count (log : list (gmap string pyval)) : Z :=
  match log with
  | [] => 0
  | c :: log' =>
      (if is_completed c then 1 else 0) + completed_count log'
  end%Z.

(** The document count an entry reports; an entry without one reports 0. *)
Definition doc_count (c : gmap string pyval) : Z :=
  match c !! "documents_found" with
  | Some (PyInt z) => z
  | _ => 0%Z
  end.

(** Sum of the document counts of the completed entries. *)
Fixpoint completed_docs (log : list (gmap string pyval)) : Z :=
  match log with
  | [] => 0
  | c :: log' =>
      (if is_completed c then doc_count c else 0) + completed_docs log'
  end%Z.

(** The counts of a completed entry are numbers (or absent). *)
Definition well_typed (c : gmap string pyval) : Prop :=
  is_completed c = true ->
  c !! "documents_found" = None \/
  exists z, c !! "documents_found" = Some (PyInt z).

End Spec.

(** ** The intent classifier *)

Section IntentClassifier.
Import PyStr AuditIntelligenceApp Spec.

(** A text mentions a vocabulary when one of its words occurs in the
    lower-cased text. *)
Definition mentions (words : list string) (query : string) : Prop :=
  exists w, In w words /\ occurs w (lower query).

Lemma mentions_any_in (words : list string) (query : string) :
  mentions words query <-> any_in words (lower query) = true.
Proof. unfold mentions. now rewrite any_in_spec. Qed.

Lemma not_mentions_any_in (words : list string) (query : string) :
  ~ mentions words query <-> any_in words (lower query) = false.
Proof.
  rewrite mentions_any_in. destruct (any_in words (lower query)); intuition congruence.
Qed.




Lemma mentions_checklist (query : string) :
  mentions checklist_words query -> _determine_intent query = "checklist".
Proof.
  rewrite mentions_any_in. unfold _determine_intent. now intros ->.
Qed.

(** C2: the classifier answers checklist when the text mentions a checklist
    word; otherwise report when it mentions a report word; otherwise
    insights when it mentions an insights word; otherwise general.  The
    three vocabularies are tried in this order and the first match wins. *)
Theorem determine_intent_priority (query : string) :
  (mentions checklist_words query ->
     _determine_intent query = "checklist") /\
  (~ mentions checklist_words query -> mentions report_words query ->
     _determine_intent query = "report") /\
  (~ mentions checklist_words query -> ~ mentions report_words query ->
   mentions insights_words query ->
     _determine_intent query = "insights") /\
  (~ mentions checklist_words query -> ~ mentions report_words query ->
   ~ mentions insights_words query ->
     _determine_intent query = "general").
Proof.
  unfold _determine_intent.
  rewrite !not_mentions_any_in, !mentions_any_in.
  repeat split; intros; repeat match goal with
    | H : any_in _ _ = _ |- _ => rewrite H; clear H
    end; reflexivity.
Qed.

Lemma determine_intent_priority_witness :
  _determine_intent "Report on the audit checklist" = "checklist" /\
  _determine_intent "Summary report for Hovione" = "report" /\
  _determine_intent "Deviation trends" = "insights" /\
  _determine_intent "Hello there" = "general".
Proof.
  split; [|split; [|split]].
  - apply (proj1 (determine_intent_priority "Report on the audit checklist")).
    apply mentions_any_in. reflexivity.
  - apply (proj1 (proj2 (determine_intent_priority "Summary report for Hovione")));
      [apply not_mentions_any_in | apply mentions_any_in]; reflexivity.
  - apply (proj1 (proj2 (proj2 (determine_intent_priority "Deviation trends"))));
      [apply not_mentions_any_in | apply not_mentions_any_in
      | apply mentions_any_in]; reflexivity.
  - apply (proj2 (proj2 (proj2 (determine_intent_priority "Hello there"))));
      apply not_mentions_any_in; reflexivity.
Defined.

(** C8: the classifier is total and its value is always one of checklist,
    report, insights and general; on the empty text it is general. *)
Theorem determine_intent_total (query : string) :
  In (_determine_intent query) intents /\
  _determine_intent EmptyString = "general".
Proof.
  split; [|reflexivity].
  unfold _determine_intent, intents.
  destruct (any_in checklist_words _); [simpl; tauto|].
  destruct (any_in report_words _); [simpl; tauto|].
  destruct (any_in insights_words _); simpl; tauto.
Qed.

End IntentClassifier.

(** ** The agent selector *)

Section AgentSelector.
Import PyStr AuditIntelligenceApp Spec.

(** What one rule appends for a lower-cased query. *)
Definition contribution (query_lower : string)
    (r : list string * list string) : list string :=
  if any_in (fst r) query_lower then snd r else [].

(** The list built by the five guarded appends, before the fallback test. *)
Definition appended (query : string) : list string :=
  "orchestrator" :: flat_map (contribution (lower query)) trigger_rules.

(** Boolean test for a list of names without repetition. *)
Fixpoint nodupb (l : list string) : bool :=
  match l with
  | [] => true
  | x :: l' => negb (existsb (String.eqb x) l') && nodupb l'
  end.

Lemma nodupb_spec (l : list string) : nodupb l = true <-> List.NoDup l.
Proof.
  induction l as [|x l IH]; simpl.
  - split; [constructor | reflexivity].
  - rewrite andb_true_iff, negb_true_iff, IH. split.
    + intros [Hx Hl]. constructor; [|exact Hl].
      intros Hin. assert (existsb (String.eqb x) l = true); [|congruence].
      apply existsb_exists. exists x. split; [exact Hin | apply String.eqb_refl].
    + intros H. inversion H as [|? ? Hx Hl]; subst. split; [|exact Hl].
      destruct (existsb (String.eqb x) l) eqn:E; [|reflexivity].
      apply existsb_exists in E as [y [Hin Hy]].
      apply String.eqb_eq in Hy. subst y. contradiction.
Qed.

Lemma extend_if_contribution (words : list string) (ql : string)
    (more l : list string) :
  extend_if words ql more l = l ++ contribution ql (words, more).
Proof.
  unfold extend_if, contribution. simpl.
  destruct (any_in words ql); [reflexivity | now rewrite app_nil_r].
Qed.

(** The selector is the fallback test applied to the appended list. *)
Lemma selector_unfold (query intent : string) :
  _get_relevant_agents query intent =
  if (length (appended query) <=? 1)%nat then all_agents else appended query.
Proof.
  unfold _get_relevant_agents, appended.
  rewrite !extend_if_contribution. simpl flat_map.
  rewrite app_nil_r, <- !app_assoc. reflexivity.
Qed.

Lemma fires_any_in (r : list string * list string) (query : string) :
  fires r query <-> any_in (fst r) (lower query) = true.
Proof. unfold fires. now rewrite any_in_spec. Qed.

Lemma in_contribution (a : string) (r : list string * list string)
    (query : string) :
  In a (contribution (lower query) r) <-> fires r query /\ In a (snd r).
Proof.
  rewrite fires_any_in. unfold contribution.
  destruct (any_in (fst r) (lower query)); simpl; intuition congruence.
Qed.

Lemma in_appended (a : string) (query : string) :
  In a (appended query) <->
  a = "orchestrator" \/
  exists r, In r trigger_rules /\ fires r query /\ In a (snd r).
Proof.
  unfold appended. set (l := flat_map _ _). simpl. subst l.
  rewrite in_flat_map. split.
  - intros [H | [r [Hr Ha]]]; [left; now symmetry|].
    right. exists r. apply in_contribution in Ha. tauto.
  - intros [H | [r [Hr Ha]]]; [left; now symmetry|].
    right. exists r. split; [exact Hr|]. apply in_contribution. exact Ha.
Qed.

(** Every rule of the table appends at least one agent, and only real ones. *)
Lemma rules_add_real_agents (r : list string * list string) (a : string) :
  In r trigger_rules -> In a (snd r) -> real_agent a.
Proof.
  unfold trigger_rules, real_agent, all_agents. simpl.
  intros [<- | [<- | [<- | [<- | [<- | []]]]]]; simpl; intuition.
Qed.

Lemma rules_add_something (r : list string * list string) :
  In r trigger_rules -> exists a, In a (snd r).
Proof.
  unfold trigger_rules. simpl.
  intros [<- | [<- | [<- | [<- | [<- | []]]]]]; simpl; eauto.
Qed.

(** The fallback test succeeds exactly when no rule has fired. *)
Lemma fallback_test (query : string) :
  (length (appended query) <=? 1)%nat = true <-> ~ some_rule_fires query.
Proof.
  unfold some_rule_fires. split.
  - intros Hlen [r [Hr Hf]].
    destruct (rules_add_something r Hr) as [a Ha].
    assert (Hin : In a (flat_map (contribution (lower query)) trigger_rules)).
    { apply in_flat_map. exists r. split; [exact Hr|].
      apply in_contribution. tauto. }
    unfold appended in Hlen.
    destruct (flat_map _ _); [contradiction | discriminate].
  - intros Hno. unfold appended.
    destruct (flat_map _ _) as [|a l] eqn:E; [reflexivity|].
    exfalso. apply Hno.
    assert (Hin : In a (flat_map (contribution (lower query)) trigger_rules))
      by (rewrite E; now left).
    apply in_flat_map in Hin as [r [Hr Ha]]. exists r.
    apply in_contribution in Ha. tauto.
Qed.

Lemma no_fallback (query intent : string) :
  some_rule_fires query ->
  _get_relevant_agents query intent = appended query.
Proof.
  intros H. rewrite selector_unfold.
  destruct (length (appended query) <=? 1)%nat eqn:E; [|reflexivity].
  apply fallback_test in E. contradiction.
Qed.

Lemma fallback (query intent : string) :
  ~ some_rule_fires query ->
  _get_relevant_agents query intent = all_agents.
Proof.
  intros H. rewrite selector_unfold.
  apply fallback_test in H. now rewrite H.
Qed.

Lemma some_rule_fires_dec (query : string) :
  some_rule_fires query \/ ~ some_rule_fires query.
Proof.
  destruct (length (appended query) <=? 1)%nat eqn:E.
  - right. now apply fallback_test.
  - left. destruct (flat_map (contribution (lower query)) trigger_rules)
      as [|a l] eqn:F.
    + unfold appended in E. rewrite F in E. discriminate.
    + assert (Hin : In a (flat_map (contribution (lower query)) trigger_rules))
        by (rewrite F; now left).
      apply in_flat_map in Hin as [r [Hr Ha]]. exists r.
      apply in_contribution in Ha. tauto.
Qed.

Lemma fallback_test_false (query : string) :
  (length (appended query) <=? 1)%nat = false -> some_rule_fires query.
Proof.
  intros E. destruct (some_rule_fires_dec query) as [H | H]; [exact H|].
  apply fallback_test in H. congruence.
Qed.

End AgentSelector.

(** ** Properties of the selector *)

Section SelectorProperties.
Import PyStr AuditIntelligenceApp Spec.

(** C1: for every query and intent the selector returns a list holding at
    least one real agent; when no keyword rule fires it returns exactly the
    five real agents. *)
Theorem selector_returns_real_agent (query intent : string) :
  (exists a, In a (_get_relevant_agents query intent) /\ real_agent a) /\
  (~ some_rule_fires query ->
   _get_relevant_agents query intent = all_agents).
Proof.
  split; [|apply fallback].
  destruct (some_rule_fires_dec query) as [Hsome | Hno].
  - rewrite (no_fallback _ _ Hsome).
    destruct Hsome as [r [Hr Hf]].
    destruct (rules_add_something r Hr) as [a Ha].
    exists a. split; [|exact (rules_add_real_agents r a Hr Ha)].
    apply in_appended. right. exists r. tauto.
  - rewrite (fallback _ _ Hno). exists "web_scraper".
    unfold real_agent, all_agents. simpl. tauto.
Qed.

Lemma selector_returns_real_agent_witness :
  ~ some_rule_fires "Hello there" /\
  _get_relevant_agents "Hello there" "general" =
    ["web_scraper"; "internal_audit"; "external_conference";
     "quality_systems"; "sop"].
Proof.
  assert (H : ~ some_rule_fires "Hello there")
    by (apply fallback_test; reflexivity).
  split; [exact H|].
  exact (proj2 (selector_returns_real_agent "Hello there" "general") H).
Defined.

(** C3: the selector adds the agents of every rule that fires, each rule
    independently of the others: company-name words add quality_systems and
    external_conference, audit words add internal_audit and sop, quality
    words add quality_systems, conference words add external_conference,
    regulatory words add web_scraper.  When a rule fires, the real agents
    returned are exactly those added by the rules that fire, and one query
    can fire several rules. *)
Theorem selector_union_of_rules (query intent : string) :
  (forall r a, In r trigger_rules -> fires r query -> In a (snd r) ->
     In a (_get_relevant_agents query intent)) /\
  (forall a, some_rule_fires query ->
     In a (_get_relevant_agents query intent) ->
     a = "orchestrator" \/
     exists r, In r trigger_rules /\ fires r query /\ In a (snd r)) /\
  (exists q, Forall (fun r => fires r q) trigger_rules).
Proof.
  split; [|split].
  - intros r a Hr Hf Ha.
    rewrite no_fallback by (exists r; tauto).
    apply in_appended. right. exists r. tauto.
  - intros a Hsome Ha. rewrite (no_fallback _ _ Hsome) in Ha.
    now apply in_appended.
  - exists "company audit of quality events and fda warnings".
    unfold trigger_rules.
    repeat (constructor; [apply fires_any_in; reflexivity|]). constructor.
Qed.

Lemma selector_union_of_rules_witness :
  In "sop" (_get_relevant_agents "Hovione audit" "general") /\
  ("sop" = "orchestrator" \/
   exists r, In r trigger_rules /\ fires r "Hovione audit" /\ In "sop" (snd r)).
Proof.
  pose (r := (audit_words, ["internal_audit"; "sop"])).
  assert (Hr : In r trigger_rules) by (right; left; reflexivity).
  assert (Hf : fires r "Hovione audit") by (apply fires_any_in; reflexivity).
  assert (Ha : In "sop" (snd r)) by (right; left; reflexivity).
  pose proof (selector_union_of_rules "Hovione audit" "general") as [H1 [H2 _]].
  split.
  - exact (H1 r "sop" Hr Hf Ha).
  - apply H2; [exists r; tauto | exact (H1 r "sop" Hr Hf Ha)].
Defined.

(** C5: the query of the scenario is classified as checklist, and the
    selector returns the marker followed by quality_systems,
    external_conference, internal_audit and sop. *)
Theorem hovione_checklist_scenario :
  let query :=
    "Generate a checklist for Hovione sterile manufacturing audit" in
  _determine_intent query = "checklist" /\
  _get_relevant_agents query (_determine_intent query) =
    ["orchestrator"; "quality_systems"; "external_conference";
     "internal_audit"; "sop"] /\
  Forall (fun a => In a (_get_relevant_agents query (_determine_intent query)))
    ["internal_audit"; "sop"; "quality_systems"; "external_conference"].
Proof.
  split; [reflexivity | split; [reflexivity|]].
  repeat constructor; vm_compute; tauto.
Qed.

(** C6, as stated, fails: a query firing the company-name rule and the
    quality rule gets quality_systems twice. *)
Lemma selector_duplicates_counterexample :
  _get_relevant_agents "Hovione quality" "general" =
    ["orchestrator"; "quality_systems"; "external_conference";
     "quality_systems"] /\
  ~ List.NoDup (_get_relevant_agents "Hovione quality" "general").
Proof.
  split; [reflexivity|].
  intros H. apply nodupb_spec in H. vm_compute in H. discriminate.
Qed.

(** C6, amended: the returned list is free of duplicates exactly when the
    company-name rule does not fire together with the quality rule or the
    conference rule; when it fires with the quality rule quality_systems is
    returned twice, when it fires with the conference rule
    external_conference is returned twice. *)
Theorem selector_duplicates (query intent : string) :
  let result := _get_relevant_agents query intent in
  (List.NoDup result <->
   ~ (mentions company_words query /\
      (mentions quality_words query \/ mentions conference_words query))) /\
  (mentions company_words query -> mentions quality_words query ->
   count_occ string_dec result "quality_systems" = 2%nat) /\
  (mentions company_words query -> mentions conference_words query ->
   count_occ string_dec result "external_conference" = 2%nat).
Proof.
  cbv zeta. rewrite <- nodupb_spec, !mentions_any_in.
  unfold _get_relevant_agents, extend_if.
  destruct (any_in company_words (lower query));
  destruct (any_in audit_words (lower query));
  destruct (any_in quality_words (lower query));
  destruct (any_in conference_words (lower query));
  destruct (any_in web_words (lower query));
  (split; [vm_compute; intuition discriminate
          | split; intros; first [discriminate | reflexivity]]).
Qed.

Lemma selector_duplicates_witness :
  mentions company_words "Hovione quality event" /\
  mentions quality_words "Hovione quality event" /\
  mentions conference_words "Hovione quality event" /\
  count_occ string_dec
    (_get_relevant_agents "Hovione quality event" "general")
    "quality_systems" = 2%nat /\
  count_occ string_dec
    (_get_relevant_agents "Hovione quality event" "general")
    "external_conference" = 2%nat /\
  List.NoDup (_get_relevant_agents "FDA audit" "general").
Proof.
  assert (Hc : mentions company_words "Hovione quality event")
    by (apply mentions_any_in; reflexivity).
  assert (Hq : mentions quality_words "Hovione quality event")
    by (apply mentions_any_in; reflexivity).
  assert (He : mentions conference_words "Hovione quality event")
    by (apply mentions_any_in; reflexivity).
  pose proof (selector_duplicates "Hovione quality event" "general")
    as [_ [H2 H3]].
  pose proof (selector_duplicates "FDA audit" "general") as [H1 _].
  refine (conj Hc (conj Hq (conj He (conj (H2 Hc Hq) (conj (H3 Hc He) _))))).
  apply H1. intros [Hc' _]. apply mentions_any_in in Hc'. discriminate.
Defined.

(** C7 fails on the fallback path: for a query firing no rule the list
    returned is the five real agents, without the orchestrator marker. *)
Theorem orchestrator_dropped_on_fallback :
  _get_relevant_agents EmptyString "general" =
    ["web_scraper"; "internal_audit"; "external_conference";
     "quality_systems"; "sop"] /\
  ~ In "orchestrator" (_get_relevant_agents EmptyString "general").
Proof.
  split; [reflexivity|]. vm_compute. intuition discriminate.
Qed.

(** C9: keywords are matched as substrings, not as words.  Every text that
    contains blacklist is classified as checklist, also a text none of whose
    words is a checklist word.  Likewise every text that contains prevent,
    which embeds event, fires the conference rule of the selector: the
    result holds the marker and external_conference instead of the fallback
    list, and for a text none of whose words is a conference word it is
    exactly the marker followed by external_conference. *)
Theorem substring_matching :
  (forall pre post,
     _determine_intent
       (String.append pre (String.append "blacklist" post)) = "checklist") /\
  _determine_intent "update the blacklist" = "checklist" /\
  Forall (fun w => ~ In w checklist_words)
    (String.words (lower "update the blacklist")) /\
  (forall pre post intent,
     In "orchestrator"
       (_get_relevant_agents
          (String.append pre (String.append "prevent" post)) intent) /\
     In "external_conference"
       (_get_relevant_agents
          (String.append pre (String.append "prevent" post)) intent)) /\
  _get_relevant_agents "prevent contamination" "general"
    = ["orchestrator"; "external_conference"] /\
  Forall (fun w => ~ In w conference_words)
    (String.words (lower "prevent contamination")).
Proof.
  split; [|split; [reflexivity | split; [|split; [|split; [reflexivity|]]]]].
  - intros pre post.
    apply mentions_checklist.
    exists "list". split; [right; left; reflexivity|].
    rewrite !lower_app.
    exists (String.append (lower pre) "black"), (lower post).
    rewrite append_assoc. reflexivity.
  - vm_compute. repeat constructor; intuition discriminate.
  - intros pre post intent.
    pose (r := (conference_words, ["external_conference"])).
    assert (Hr : In r trigger_rules)
      by (right; right; right; left; reflexivity).
    assert (Hf : fires r (String.append pre (String.append "prevent" post))).
    { exists "event". split; [right; left; reflexivity|].
      rewrite !lower_app.
      exists (String.append (lower pre) "pr"), (lower post).
      rewrite append_assoc. reflexivity. }
    rewrite no_fallback by (exists r; tauto).
    split; apply in_appended; [now left | right].
    exists r. split; [exact Hr | split; [exact Hf | now left]].
  - vm_compute. repeat constructor; intuition discriminate.
Qed.

End SelectorProperties.

(** ** The communication-log counters *)

Section CommunicationLog.
Import PyStr AuditIntelligenceApp Spec.

Lemma successful_agents_cons (c : gmap string pyval)
    (log : list (gmap string pyval)) :
  successful_agents (c :: log) =
  ((if is_completed c then 1 else 0) + successful_agents log)%Z.
Proof.
  unfold successful_agents. simpl.
  destruct (is_completed c); [simpl length; lia | lia].
Qed.

Lemma successful_agents_count (log : list (gmap string pyval)) :
  successful_agents log = completed_count log.
Proof.
  induction log as [|c log IH]; [reflexivity|].
  rewrite successful_agents_cons, IH. reflexivity.
Qed.

Lemma py_add_raised (vs : list pyval) : fold_left py_add vs None = None.
Proof. induction vs as [|v vs IH]; [reflexivity | exact IH]. Qed.

Lemma documents_found_well_typed (c : gmap string pyval) :
  well_typed c -> is_completed c = true ->
  documents_found c = PyInt (doc_count c).
Proof.
  intros Hwt Hc. unfold documents_found, doc_count.
  destruct (Hwt Hc) as [-> | [z ->]]; reflexivity.
Qed.

Lemma sum_completed (log : list (gmap string pyval)) (acc : Z) :
  Forall well_typed log ->
  fold_left py_add
    (List.map documents_found (List.filter is_completed log)) (Some acc)
  = Some (acc + completed_docs log)%Z.
Proof.
  intros Hwt. revert acc.
  induction Hwt as [|c log Hc _ IH]; intros acc; simpl.
  - f_equal. lia.
  - destruct (is_completed c) eqn:E; simpl.
    + rewrite (documents_found_well_typed c Hc E). simpl.
      rewrite IH. f_equal. lia.
    + rewrite IH. f_equal.
Qed.

Lemma filter_skip (l1 l2 : list (gmap string pyval)) (c : gmap string pyval) :
  is_completed c = false ->
  List.filter is_completed (l1 ++ c :: l2) = List.filter is_completed (l1 ++ l2).
Proof.
  intros Hc. rewrite !List.filter_app. simpl. now rewrite Hc.
Qed.

(** The log of the scenario: four agents completed with three documents
    each and one failed, its entry holding no usable count. *)
Definition completed_entry (agent : string) (docs : Z) : gmap string pyval :=
  <["agent" := PyStr agent]>
    (<["status" := PyStr "completed"]>
       (<["documents_found" := PyInt docs]> ∅)).

Definition failed_entry (agent error : string) : gmap string pyval :=
  <["agent" := PyStr agent]>
    (<["status" := PyStr "error"]>
       (<["error" := PyStr error]>
          (<["documents_found" := PyNone]> ∅))).

Definition scenario_log : list (gmap string pyval) :=
  [ completed_entry "web_scraper" 3;
    completed_entry "internal_audit" 3;
    failed_entry "external_conference" "Timeout";
    completed_entry "quality_systems" 3;
    completed_entry "sop" 3 ].

Lemma scenario_log_well_typed : Forall well_typed scenario_log.
Proof.
  unfold scenario_log.
  repeat (constructor;
          [ intros H; first [ right; exists 3%Z; reflexivity
                            | vm_compute in H; discriminate ] |]).
  constructor.
Qed.

(** C4: the count shown as Successful (the agents used) is the number of
    log entries whose status is completed, and the count shown as Documents
    Found is the sum of the document counts of the completed entries only;
    an entry with another status adds nothing to either, whatever it holds. *)
Theorem communication_summary (log : list (gmap string pyval)) :
  successful_agents log = completed_count log /\
  (Forall well_typed log -> total_docs log = Some (completed_docs log)) /\
  (forall l1 c l2, log = l1 ++ c :: l2 -> is_completed c = false ->
     successful_agents log = successful_agents (l1 ++ l2) /\
     total_docs log = total_docs (l1 ++ l2)) /\
  (Forall well_typed log -> log <> [] ->
   communication_metrics log =
     Some [("Total Agents", Z.of_nat (length log));
           ("Successful", completed_count log);
           ("Documents Found", completed_docs log)]).
Proof.
  split; [apply successful_agents_count | split; [|split]].
  - intros Hwt. unfold total_docs. now rewrite sum_completed.
  - intros l1 c l2 -> Hc. unfold successful_agents, total_docs.
    now rewrite (filter_skip l1 l2 c Hc).
  - intros Hwt Hne. unfold communication_metrics.
    destruct log as [|c log]; [congruence|].
    unfold total_docs. rewrite sum_completed by exact Hwt.
    now rewrite successful_agents_count.
Qed.

Lemma communication_summary_witness :
  Forall well_typed scenario_log /\
  scenario_log <> [] /\
  communication_metrics scenario_log =
    Some [("Total Agents", 5%Z); ("Successful", 4%Z);
          ("Documents Found", 12%Z)] /\
  total_docs scenario_log =
    total_docs (List.firstn 2 scenario_log ++ List.skipn 3 scenario_log).
Proof.
  pose proof (communication_summary scenario_log) as [_ [_ [Hskip Hmet]]].
  assert (Hne : scenario_log <> []) by discriminate.
  refine (conj scenario_log_well_typed (conj Hne (conj _ _))).
  - exact (Hmet scenario_log_well_typed Hne).
  - exact (proj2 (Hskip (List.firstn 2 scenario_log)
                    (failed_entry "external_conference" "Timeout")
                    (List.skipn 3 scenario_log) eq_refl eq_refl)).
Defined.

End CommunicationLog.

(** ** The per-session agent status dictionary *)

Module SessionState.
Import PyStr AuditIntelligenceApp.

(** The dictionary [_create_sidebar] stores in [st.session_state] when the
    session has no ['agent_status'] yet. *)
Definition initial_agent_status : gmap string string :=
  <["web_scraper" := "idle"]>
    (<["internal_audit" := "idle"]>
       (<["external_conference" := "idle"]>
          (<["quality_systems" := "idle"]>
             (<["sop" := "idle"]> ∅)))).

(** [if 'agent_status' not in st.session_state: ...] of [_create_sidebar];
    [None] stands for a session without the key. *)
Definition ensure_agent_status (session : option (gmap string string))
    : gmap string string :=
  match session with
  | Some agent_status => agent_status
  | None => initial_agent_status
  end.

(** [for agent_name in agent_status: agent_status[agent_name] = 'idle'] *)
Definition reset_agent_status (agent_status : gmap string string)
    : gmap string string :=
  (fun _ => "idle") <$> agent_status.

(** [for agent_name in names: agent_status[agent_name] = status] *)
Definition mark (status : string) (names : list string)
    (agent_status : gmap string string) : gmap string string :=
  foldl (fun m agent_name => <[agent_name := status]> m) agent_status names.

(** [for agent_name in names:
       if agent_name in agent_status: agent_status[agent_name] = status] *)
Definition mark_known (status : string) (names : list string)
    (agent_status : gmap string string) : gmap string string :=
  foldl (fun m agent_name =>
           match m !! agent_name with
           | Some _ => <[agent_name := status]> m
           | None => m
           end) agent_status names.

(** How the [try] block of [_process_query] ends: the orchestrator call
    raises, the display of its response raises, or both return. *)
Inductive attempt : Type :=
  | OrchestratorRaised
  | DisplayRaised
  | Displayed.

(** The status dictionary [_display_response] reads, when it is reached. *)
Definition status_at_display (query : string)
    (agent_status : gmap string string) : gmap string string :=
  let agent_status := reset_agent_status agent_status in
  let intent := _determine_intent query in
  let agents_to_use := _get_relevant_agents query intent in
  let agent_status := mark "running" agents_to_use agent_status in
  mark "completed" agents_to_use agent_status.

(** [_process_query(self, query)] as a transformer of the status
    dictionary. *)
Definition _process_query (query : string) (outcome : attempt)
    (agent_status : gmap string string) : gmap string string :=
  let agent_status := reset_agent_status agent_status in
  let intent := _determine_intent query in
  let agents_to_use := _get_relevant_agents query intent in
  let agent_status := mark "running" agents_to_use agent_status in
  match outcome with
  | OrchestratorRaised => mark "error" agents_to_use agent_status
  | DisplayRaised =>
      mark "error" agents_to_use (mark "completed" agents_to_use agent_status)
  | Displayed => mark "completed" agents_to_use agent_status
  end.

(** The argument of [st.columns] in [_process_query]. *)
Definition progress_columns (query : string) : nat :=
  length (_get_relevant_agents query (_determine_intent query)).

(** [len([s for s in st.session_state.agent_status.values()
          if s == 'completed'])], the "Agents Used" metric of
    [_display_response]. *)
Definition agents_used_metric (agent_status : gmap string string) : nat :=
  length (filter (fun s => s = "completed") (map_to_list agent_status).*2).

(** [_process_smart_query(self, query)] as a transformer of the status
    dictionary.  [None]: the smart orchestrator raised; [Some involved]: it
    returned a response whose [response.get('involved_agents', [])] is
    [involved].  The later display does not touch the dictionary. *)
Definition _process_smart_query (result : option (list string))
    (agent_status : gmap string string) : gmap string string :=
  let agent_status := reset_agent_status agent_status in
  match result with
  | Some involved_agents => mark_known "completed" involved_agents agent_status
  | None => agent_status
  end.

(** The line [_create_sidebar] writes for one agent; a status outside the
    four known ones writes nothing. *)
Definition sidebar_line (display_name status : string) : option string :=
  if String.eqb status "idle" then
    Some (String.append "⭕ " (String.append display_name " Agent"))
  else if String.eqb status "running" then
    Some (String.append "🔄 " (String.append display_name " Agent"))
  else if String.eqb status "completed" then
    Some (String.append "✅ " (String.append display_name " Agent"))
  else if String.eqb status "error" then
    Some (String.append "❌ " (String.append display_name " Agent"))
  else None.

(** One request handled by the application. *)
Inductive request : Type :=
  | Query (query : string) (outcome : attempt)
  | SmartQuery (result : option (list string)).

Definition handle (agent_status : gmap string string) (r : request)
    : gmap string string :=
  match r with
  | Query query outcome => _process_query query outcome agent_status
  | SmartQuery result => _process_smart_query result agent_status
  end.

(** The status dictionary after a session: the sidebar initialises it, then
    the requests run in order. *)
Definition session (requests : list request) : gmap string string :=
  foldl handle (ensure_agent_status None) requests.

End SessionState.

(** ** Facts on the status dictionary *)

Section SessionStateFacts.
Import PyStr AuditIntelligenceApp Spec SessionState.

Lemma lookup_reset (s : gmap string string) (k : string) :
  reset_agent_status s !! k = (fun _ => "idle") <$> s !! k.
Proof. unfold reset_agent_status. apply lookup_fmap. Qed.

Lemma lookup_mark (v : string) (names : list string)
    (s : gmap string string) (k : string) :
  mark v names s !! k = if decide (k ∈ names) then Some v else s !! k.
Proof.
  unfold mark. revert s. induction names as [|a names IH]; intros s; simpl.
  - destruct (decide (k ∈ [])) as [H|H]; [inversion H | reflexivity].
  - rewrite IH. destruct (decide (k ∈ names)) as [Hin|Hnin].
    + rewrite decide_True by (right; exact Hin). reflexivity.
    + destruct (decide (k = a)) as [->|Hne].
      * rewrite decide_True by left. apply lookup_insert_eq.
      * rewrite decide_False by (rewrite elem_of_cons; tauto).
        apply lookup_insert_ne. congruence.
Qed.

Lemma lookup_mark_known (v : string) (names : list string)
    (s : gmap string string) (k : string) :
  mark_known v names s !! k =
  match s !! k with
  | Some x => Some (if decide (k ∈ names) then v else x)
  | None => None
  end.
Proof.
  unfold mark_known. revert s. induction names as [|a names IH]; intros s; simpl.
  - destruct (s !! k); [|reflexivity].
    destruct (decide (k ∈ [])) as [H|H]; [inversion H | reflexivity].
  - rewrite IH. destruct (decide (k = a)) as [->|Hne].
    + destruct (s !! a) as [x|] eqn:E.
      * rewrite lookup_insert_eq. rewrite (decide_True (P := a ∈ a :: names)) by left.
        destruct (decide (a ∈ names)); reflexivity.
      * rewrite E. reflexivity.
    + assert (Hk : match s !! a with
                   | Some _ => <[a:=v]> s
                   | None => s
                   end !! k = s !! k).
      { destruct (s !! a); [apply lookup_insert_ne; congruence | reflexivity]. }
      rewrite Hk. destruct (s !! k); [|reflexivity].
      destruct (decide (k ∈ names)) as [Hin|Hnin].
      * rewrite decide_True by (right; exact Hin). reflexivity.
      * rewrite decide_False by (rewrite elem_of_cons; tauto). reflexivity.
Qed.

(** Counting the values equal to [v] is counting the keys bound to [v]. *)
Lemma count_values_size (v : string) (s : gmap string string) :
  length (filter (fun x => x = v) (map_to_list s).*2) =
  size (filter (fun kv : string * string => kv.2 = v) s).
Proof.
  induction s as [|i x s Hi IH] using map_ind.
  - rewrite map_to_list_empty, map_filter_empty, map_size_empty. reflexivity.
  - rewrite (map_to_list_insert s i x Hi). rewrite fmap_cons. simpl.
    destruct (decide (x = v)) as [->|Hne].
    + rewrite filter_cons_True by reflexivity. simpl. rewrite IH.
      rewrite map_filter_insert_True by reflexivity.
      rewrite map_size_insert_None; [reflexivity|].
      apply map_lookup_filter_None. left. exact Hi.
    + rewrite filter_cons_False by exact Hne. rewrite IH.
      rewrite map_filter_insert_False by exact Hne.
      rewrite delete_id by exact Hi. reflexivity.
Qed.

Lemma list_to_set_remove_dups (l : list string) :
  (list_to_set (remove_dups l) : gset string) = list_to_set l.
Proof.
  apply set_eq. intros x.
  rewrite !elem_of_list_to_set. apply elem_of_remove_dups.
Qed.

(** Every name the selector returns is the marker or a real agent. *)
Lemma selected_names (query intent a : string) :
  In a (_get_relevant_agents query intent) ->
  a = "orchestrator" \/ In a all_agents.
Proof.
  rewrite selector_unfold.
  destruct (length (appended query) <=? 1)%nat; [tauto|].
  intros H. apply in_appended in H as [H | [r [Hr [_ Ha]]]]; [tauto|].
  right. exact (rules_add_real_agents r a Hr Ha).
Qed.

(** The marker is returned exactly when a rule fires. *)
Lemma orchestrator_selected (query intent : string) :
  In "orchestrator" (_get_relevant_agents query intent) <->
  some_rule_fires query.
Proof.
  destruct (some_rule_fires_dec query) as [Hs | Hn].
  - rewrite (no_fallback _ _ Hs). split; [tauto|].
    intros _. apply in_appended. now left.
  - rewrite (fallback _ _ Hn). split; [|tauto].
    unfold all_agents. simpl. intuition discriminate.
Qed.

End SessionStateFacts.

(** ** Properties of the status dictionary *)

Section SessionStateProperties.
Import PyStr AuditIntelligenceApp Spec SessionState.

(** After [_process_query], whatever the dictionary held before: every
    name the selector returned is bound to completed when the try block
    ran through and to error when it raised; every other key is kept and
    bound to idle; no other key is created. *)
Theorem process_query_status (query : string) (outcome : attempt)
    (s : gmap string string) (k : string) :
  let agents := _get_relevant_agents query (_determine_intent query) in
  (In k agents ->
   _process_query query outcome s !! k =
     Some (match outcome with Displayed => "completed" | _ => "error" end)) /\
  (~ In k agents ->
   _process_query query outcome s !! k =
     match s !! k with Some _ => Some "idle" | None => None end).
Proof.
  cbv zeta. unfold _process_query. rewrite <- !list_elem_of_In.
  set (agents := _get_relevant_agents query (_determine_intent query)).
  split; intros Hk.
  - destruct outcome; rewrite lookup_mark, decide_True by exact Hk;
      reflexivity.
  - assert (H : forall v m, mark v agents m !! k = m !! k)
      by (intros v m; now rewrite lookup_mark, decide_False by exact Hk).
    destruct outcome; rewrite !H, lookup_reset; destruct (s !! k); reflexivity.
Qed.

Lemma process_query_status_witness :
  _process_query "Hovione audit" Displayed initial_agent_status !! "sop"
    = Some "completed" /\
  _process_query "Hovione audit" OrchestratorRaised initial_agent_status
    !! "orchestrator" = Some "error" /\
  _process_query "Hovione audit" Displayed initial_agent_status
    !! "web_scraper" = Some "idle" /\
  _process_query "Hovione audit" Displayed initial_agent_status
    !! "unknown" = None.
Proof.
  refine (conj _ (conj _ (conj _ _))).
  - apply (proj1 (process_query_status "Hovione audit" Displayed
                    initial_agent_status "sop")).
    vm_compute. tauto.
  - apply (proj1 (process_query_status "Hovione audit" OrchestratorRaised
                    initial_agent_status "orchestrator")).
    vm_compute. tauto.
  - apply (proj2 (process_query_status "Hovione audit" Displayed
                    initial_agent_status "web_scraper")).
    vm_compute. intuition discriminate.
  - apply (proj2 (process_query_status "Hovione audit" Displayed
                    initial_agent_status "unknown")).
    vm_compute. intuition discriminate.
Defined.

(** The "Agents Used" figure that [_display_response] shows when
    [_process_query] reaches it is the number of distinct names the selector
    returned, the orchestrator marker included; it lies between 2 and 6 and
    never exceeds the number of progress columns, which lies between 2 and 8
    (so [st.columns] is never asked for zero columns). *)
Theorem agents_used_counts_distinct_names (query : string)
    (s : gmap string string) :
  let agents := _get_relevant_agents query (_determine_intent query) in
  agents_used_metric (status_at_display query s)
    = length (remove_dups agents) /\
  (2 <= length (remove_dups agents) <= 6)%nat /\
  (length (remove_dups agents) <= progress_columns query)%nat /\
  (2 <= progress_columns query <= 8)%nat.
Proof.
  cbv zeta. split.
  - unfold agents_used_metric, status_at_display.
    set (agents := _get_relevant_agents query (_determine_intent query)).
    rewrite count_values_size.
    rewrite <- (size_list_to_set (C := gset string) (remove_dups agents))
      by apply NoDup_remove_dups.
    rewrite list_to_set_remove_dups, <- size_dom. f_equal.
    apply dom_filter_L. intros i. rewrite elem_of_list_to_set, !lookup_mark.
    destruct (decide (i ∈ agents)) as [Hi|Hi].
    + split; [eauto | tauto].
    + rewrite lookup_reset. split; [tauto|].
      intros [x [Hx Hc]]. simpl in Hc. subst x.
      destruct (s !! i); discriminate.
  - unfold progress_columns, _get_relevant_agents, extend_if.
    destruct (any_in company_words _), (any_in audit_words _),
      (any_in quality_words _), (any_in conference_words _),
      (any_in web_words _); vm_compute; lia.
Qed.

(** After [_process_smart_query] the dictionary has the keys it had before:
    a key is bound to completed when the response lists it among the
    involved agents and to idle otherwise; an involved agent that is not a
    key is ignored; when the orchestrator raised every key is idle. *)
Theorem process_smart_query_status (result : option (list string))
    (s : gmap string string) (k : string) :
  _process_smart_query result s !! k =
  match s !! k, result with
  | None, _ => None
  | Some _, None => Some "idle"
  | Some _, Some involved =>
      Some (if decide (k ∈ involved) then "completed" else "idle")
  end.
Proof.
  unfold _process_smart_query. destruct result as [involved|].
  - rewrite lookup_mark_known, lookup_reset. destruct (s !! k); reflexivity.
  - rewrite lookup_reset. destruct (s !! k); reflexivity.
Qed.

(** What holds of the dictionary between requests. *)
Definition status_invariant (s : gmap string string) : Prop :=
  (forall a, In a all_agents -> is_Some (s !! a)) /\
  (forall k v, s !! k = Some v ->
     (k = "orchestrator" \/ In k all_agents) /\
     (v = "idle" \/ v = "completed" \/ v = "error")).

Lemma status_invariant_initial : status_invariant initial_agent_status.
Proof.
  split.
  - unfold all_agents. simpl.
    intros a [<- | [<- | [<- | [<- | [<- | []]]]]]; vm_compute; eauto.
  - intros k v. unfold initial_agent_status, all_agents.
    rewrite !lookup_insert, lookup_empty. simpl.
    repeat case_decide; intros; simplify_eq; tauto.
Qed.

Lemma status_invariant_handle (s : gmap string string) (r : request) :
  status_invariant s -> status_invariant (handle s r).
Proof.
  intros [Hdom Hval]. destruct r as [query outcome | result]; simpl.
  - pose proof (process_query_status query outcome s) as Hq. cbv zeta in Hq.
    set (agents := _get_relevant_agents query (_determine_intent query)) in *.
    split.
    + intros a Ha. destruct (decide (a ∈ agents)) as [Hi|Hi];
        rewrite list_elem_of_In in Hi.
      * rewrite (proj1 (Hq a) Hi). eauto.
      * rewrite (proj2 (Hq a) Hi). destruct (Hdom a Ha) as [x ->]. eauto.
    + intros k v. destruct (decide (k ∈ agents)) as [Hi|Hi];
        rewrite list_elem_of_In in Hi.
      * rewrite (proj1 (Hq k) Hi). intros [= <-].
        split; [exact (selected_names _ _ _ Hi) | destruct outcome; tauto].
      * rewrite (proj2 (Hq k) Hi). destruct (s !! k) as [x|] eqn:E; [|discriminate].
        intros [= <-]. split; [exact (proj1 (Hval k x E)) | tauto].
  - split.
    + intros a Ha. rewrite process_smart_query_status.
      destruct (Hdom a Ha) as [x ->]. destruct result; eauto.
    + intros k v. rewrite process_smart_query_status.
      destruct (s !! k) as [x|] eqn:E; [|discriminate].
      split; [exact (proj1 (Hval k x E))|].
      destruct result as [involved|]; [destruct (decide _)|];
        simplify_eq; tauto.
Qed.

Lemma status_invariant_foldl (requests : list request)
    (s : gmap string string) :
  status_invariant s -> status_invariant (foldl handle s requests).
Proof.
  revert s. induction requests as [|r requests IH]; intros s Hs; [exact Hs|].
  simpl. apply IH. now apply status_invariant_handle.
Qed.

(** Whatever requests a session has served, the dictionary still has the
    five real agents as keys, has no key beyond them and the orchestrator
    marker, binds every key to idle, completed or error (never to running),
    and so the sidebar writes a line for every key. *)
Theorem session_status_invariant (requests : list request) :
  (forall a, In a all_agents -> is_Some (session requests !! a)) /\
  (forall k v, session requests !! k = Some v ->
     (k = "orchestrator" \/ In k all_agents) /\
     (v = "idle" \/ v = "completed" \/ v = "error") /\
     forall display_name, is_Some (sidebar_line display_name v)).
Proof.
  destruct (status_invariant_foldl requests _ status_invariant_initial)
    as [Hdom Hval].
  split; [exact Hdom|].
  intros k v Hk. destruct (Hval k v Hk) as [Hkey Hv].
  refine (conj Hkey (conj Hv _)). intros display_name.
  destruct Hv as [-> | [-> | ->]]; vm_compute; eauto.
Qed.

Lemma session_status_invariant_witness :
  session [Query "Hovione audit" Displayed; SmartQuery None]
    !! "orchestrator" = Some "idle" /\
  is_Some (sidebar_line "Orchestrator" "idle") /\
  is_Some (session [Query "Hovione audit" Displayed; SmartQuery None]
             !! "sop").
Proof.
  pose proof (session_status_invariant
                [Query "Hovione audit" Displayed; SmartQuery None])
    as [Hdom Hval].
  refine (conj eq_refl (conj _ _)).
  - exact (proj2 (proj2 (Hval "orchestrator" "idle" eq_refl)) "Orchestrator").
  - apply Hdom. vm_compute. tauto.
Defined.

Lemma is_Some_handle (s : gmap string string) (r : request) (k : string) :
  is_Some (handle s r !! k) <->
  is_Some (s !! k) \/
  exists query outcome,
    r = Query query outcome /\
    In k (_get_relevant_agents query (_determine_intent query)).
Proof.
  destruct r as [query outcome | result]; simpl.
  - pose proof (process_query_status query outcome s k) as [Hin Hout].
    cbv zeta in Hin, Hout.
    destruct (decide (k ∈ _get_relevant_agents query (_determine_intent query)))
      as [Hi|Hi]; rewrite list_elem_of_In in Hi.
    + rewrite (Hin Hi). split; [|eauto]. intros _. right. eauto.
    + rewrite (Hout Hi). split.
      * destruct (s !! k); [eauto | intros [x Hx]; discriminate].
      * intros [[x ->] | [q [o [[= <- <-] Hk]]]]; [eauto | contradiction].
  - rewrite process_smart_query_status. split.
    + destruct (s !! k); [eauto | intros [x Hx]; discriminate].
    + intros [[x ->] | [q [o [Hr _]]]]; [|discriminate].
      destruct result; eauto.
Qed.

Lemma is_Some_foldl_handle (requests : list request)
    (s : gmap string string) (k : string) :
  is_Some (foldl handle s requests !! k) <->
  is_Some (s !! k) \/
  exists query outcome,
    In (Query query outcome) requests /\
    In k (_get_relevant_agents query (_determine_intent query)).
Proof.
  revert s. induction requests as [|r requests IH]; intros s; simpl.
  - split; [tauto | intros [H | [q [o [[] _]]]]; exact H].
  - rewrite IH, is_Some_handle. split.
    + intros [[H | [q [o [-> Hk]]]] | [q [o [Hin Hk]]]]; eauto 8.
    + intros [H | [q [o [[-> | Hin] Hk]]]]; eauto 8.
Qed.

(** The sidebar dictionary gains the key orchestrator, and with it a
    sidebar line for an "Orchestrator" agent, exactly when [_process_query]
    has served a query on which some keyword rule fires; smart queries and
    queries that fall back to all agents never add it. *)
Theorem orchestrator_key_appears (requests : list request) :
  is_Some (session requests !! "orchestrator") <->
  exists query outcome,
    In (Query query outcome) requests /\ some_rule_fires query.
Proof.
  unfold session. rewrite is_Some_foldl_handle. simpl. split.
  - intros [[x Hx] | [q [o [Hin Hk]]]]; [vm_compute in Hx; discriminate|].
    exists q, o. split; [exact Hin | now apply orchestrator_selected in Hk].
  - intros [q [o [Hin Hf]]]. right. exists q, o.
    split; [exact Hin | now apply orchestrator_selected].
Qed.

End SessionStateProperties.

(** ** Further Python text primitives *)

Module PyText.
Import PyStr.

(** [c.isspace()] for a 7-bit character: tab to carriage return, the four
    separators 28 to 31, and the space. *)
Definition is_space (c : ascii) : bool :=
  let n := N_of_ascii c in
  (((9 <=? n) && (n <=? 13)) || ((28 <=? n) && (n <=? 32)))%N.

(** Truth value of a [str]: non-empty. *)
Definition truthy (s : string) : bool :=
  match s with
  | EmptyString => false
  | String _ _ => true
  end.

(** [s.lstrip()] *)
Fixpoint lstrip (s : string) : string :=
  match s with
  | EmptyString => EmptyString
  | String c s' => if is_space c then lstrip s' else s
  end.

(** [s.rstrip()] *)
Fixpoint rstrip (s : string) : string :=
  match s with
  | EmptyString => EmptyString
  | String c s' =>
      let r := rstrip s' in
      if is_space c && negb (truthy r) then EmptyString else String c r
  end.

(** [s.strip()] *)
Definition strip (s : string) : string := rstrip (lstrip s).

(** [s.split(sep)] for a one-character separator. *)
Fixpoint split (sep : ascii) (s : string) : list string :=
  match s with
  | EmptyString => [EmptyString]
  | String c s' =>
      if Ascii.eqb c sep then EmptyString :: split sep s'
      else match split sep s' with
           | piece :: pieces => String c piece :: pieces
           | [] => [String c EmptyString]
           end
  end.

(** [s.replace(old, new)] for one-character [old] and [new]. *)
Fixpoint replace (old new : ascii) (s : string) : string :=
  match s with
  | EmptyString => EmptyString
  | String c s' =>
      String (if Ascii.eqb c old then new else c) (replace old new s')
  end.

(** A cased character: a letter. *)
Definition is_cased (c : ascii) : bool :=
  let n := N_of_ascii c in
  (((65 <=? n) && (n <=? 90)) || ((97 <=? n) && (n <=? 122)))%N.

(** [s.title()]: a character after a cased one is lower-cased, any other
    is upper-cased. *)
Fixpoint title_from (previous_is_cased : bool) (s : string) : string :=
  match s with
  | EmptyString => EmptyString
  | String c s' =>
      String (if previous_is_cased then lower_char c else upper_char c)
             (title_from (is_cased c) s')
  end.

Definition title (s : string) : string := title_from false s.

(** [s[:n]] *)
Fixpoint take (n : nat) (s : string) : string :=
  match n, s with
  | O, _ => EmptyString
  | S _, EmptyString => EmptyString
  | S n', String c s' => String c (take n' s')
  end.

(** Does [c] occur in [s]? *)
Fixpoint has_char (c : ascii) (s : string) : bool :=
  match s with
  | EmptyString => false
  | String d s' => Ascii.eqb d c || has_char c s'
  end.

(** First and last character of a text. *)
Definition first_char (s : string) : option ascii :=
  match s with
  | EmptyString => None
  | String c _ => Some c
  end.

Fixpoint last_char (s : string) : option ascii :=
  match s with
  | EmptyString => None
  | String c EmptyString => Some c
  | String _ s' => last_char s'
  end.

(** A non-empty text that neither starts nor ends with whitespace. *)
Definition trimmed (s : string) : Prop :=
  (exists c, first_char s = Some c /\ is_space c = false) /\
  (exists c, last_char s = Some c /\ is_space c = false).

(** A text of 7-bit characters only, on which [str.lower], [str.upper] and
    [str.title] act character by character as modelled here. *)
Fixpoint seven_bit (s : string) : bool :=
  match s with
  | EmptyString => true
  | String c s' => (N_of_ascii c <? 128)%N && seven_bit s'
  end.

(** A text made of whitespace only (possibly empty). *)
Fixpoint blank (s : string) : bool :=
  match s with
  | EmptyString => true
  | String c s' => is_space c && blank s'
  end.

End PyText.

(** ** The form handlers *)

Module Forms.
Import PyStr PyText AuditIntelligenceApp.

(** The newline character. *)
Definition nl : ascii := "010"%char.

(** The [risk_list] of [_generate_checklist]:
    [[factor.strip() for factor in risk_factors.split('\n')
      if factor.strip()] if risk_factors else None]. *)
Definition risk_list (risk_factors : string) : option (list string) :=
  if truthy risk_factors then
    Some (List.map strip
            (List.filter (fun factor => truthy (strip factor))
               (split nl risk_factors)))
  else None.

(** [value if value else None], used for [product_modality],
    [corrective_action] and [company_filter]. *)
Definition or_none (value : string) : option string :=
  if truthy value then Some value else None.

(** The guard of [_create_smart_audit_tab]:
    [if submit_button and query.strip():
       self._process_smart_query(query.strip())];
    the result is the text handed to [_process_smart_query], if any. *)
Definition submitted_query (submit_button : bool) (query : string)
    : option string :=
  if submit_button && truthy (strip query) then Some (strip query) else None.

(** [agent_name.replace('_', ' ').title()], the label used for agents,
    intents and insight types. *)
Definition display_name (name : string) : string :=
  title (replace "_"%char " "%char name).

(** The "Query Type" metric of [_display_response]. *)
Definition query_type (query : string) : string :=
  title (_determine_intent query).

End Forms.

(** ** Facts on stripping and splitting *)

Section PyTextFacts.
Import PyStr PyText.

Lemma truthy_false (s : string) : truthy s = false <-> s = EmptyString.
Proof. destruct s; simpl; split; intros; congruence. Qed.

Lemma truthy_first (s : string) :
  truthy s = true -> exists c, first_char s = Some c.
Proof. destruct s as [|c s]; simpl; [discriminate | eauto]. Qed.

Lemma lstrip_first (s : string) (c : ascii) :
  first_char (lstrip s) = Some c -> is_space c = false.
Proof.
  induction s as [|d s IH]; simpl; [discriminate|].
  destruct (is_space d) eqn:E; [exact IH|].
  simpl. intros [= <-]. exact E.
Qed.

Lemma lstrip_suffix (s : string) :
  exists pre, s = String.append pre (lstrip s).
Proof.
  induction s as [|d s [pre IH]]; simpl; [exists EmptyString; reflexivity|].
  destruct (is_space d).
  - exists (String d pre). now rewrite append_cons, <- IH.
  - exists EmptyString. reflexivity.
Qed.

Lemma rstrip_prefix (s : string) :
  exists post, s = String.append (rstrip s) post.
Proof.
  induction s as [|d s [post IH]]; simpl; [exists EmptyString; reflexivity|].
  destruct (is_space d && negb (truthy (rstrip s))).
  - exists (String d s). reflexivity.
  - exists post. now rewrite append_cons, <- IH.
Qed.

Lemma rstrip_first (s : string) :
  truthy (rstrip s) = true -> first_char (rstrip s) = first_char s.
Proof.
  destruct s as [|d s]; simpl; [discriminate|].
  destruct (is_space d && negb (truthy (rstrip s))); [discriminate|reflexivity].
Qed.

Lemma rstrip_last (s : string) :
  truthy (rstrip s) = true ->
  exists c, last_char (rstrip s) = Some c /\ is_space c = false.
Proof.
  induction s as [|d s IH]; simpl; [discriminate|].
  destruct (rstrip s) as [|e r] eqn:E; simpl.
  - rewrite andb_true_r. destruct (is_space d) eqn:Ed; [discriminate|].
    intros _. exists d. simpl. tauto.
  - rewrite andb_false_r. intros _. simpl. apply IH. reflexivity.
Qed.

Lemma rstrip_cons (c : ascii) (s : string) :
  rstrip (String c s) =
  if is_space c && negb (truthy (rstrip s)) then EmptyString
  else String c (rstrip s).
Proof. reflexivity. Qed.

Lemma rstrip_fixed (s : string) (c : ascii) :
  last_char s = Some c -> is_space c = false -> rstrip s = s.
Proof.
  induction s as [|d s IH]; [discriminate|].
  destruct s as [|e s].
  - simpl. intros [= ->] ->. reflexivity.
  - intros Hl Hc. change (last_char (String d (String e s)))
      with (last_char (String e s)) in Hl.
    rewrite rstrip_cons, (IH Hl Hc). simpl. rewrite andb_false_r. reflexivity.
Qed.

Lemma lstrip_fixed (s : string) (c : ascii) :
  first_char s = Some c -> is_space c = false -> lstrip s = s.
Proof.
  destruct s as [|d s]; simpl; [discriminate|]. intros [= ->] ->. reflexivity.
Qed.

Lemma strip_trimmed (s : string) :
  truthy (strip s) = true -> trimmed (strip s).
Proof.
  unfold strip. intros H. split; [|now apply rstrip_last].
  rewrite (rstrip_first _ H).
  destruct (lstrip s) as [|c r] eqn:E; [discriminate|].
  exists c. split; [reflexivity|].
  apply (lstrip_first s). now rewrite E.
Qed.

Lemma trimmed_strip (s : string) : trimmed s -> strip s = s.
Proof.
  intros [[c [Hf Hc]] [d [Hl Hd]]]. unfold strip.
  rewrite (lstrip_fixed s c Hf Hc). exact (rstrip_fixed s d Hl Hd).
Qed.

Lemma trimmed_truthy (s : string) : trimmed s -> truthy s = true.
Proof. intros [[c [Hf _]] _]. destruct s; [discriminate | reflexivity]. Qed.

Lemma strip_occurs (s : string) : occurs (strip s) s.
Proof.
  destruct (lstrip_suffix s) as [pre Hpre].
  destruct (rstrip_prefix (lstrip s)) as [post Hpost].
  exists pre, post. unfold strip. now rewrite <- Hpost.
Qed.

Lemma lstrip_blank (s : string) : blank s = true -> lstrip s = EmptyString.
Proof.
  induction s as [|c s IH]; simpl; [reflexivity|].
  destruct (is_space c); simpl; [exact IH | discriminate].
Qed.

Lemma strip_blank (s : string) : truthy (strip s) = false <-> blank s = true.
Proof.
  unfold strip. split.
  - induction s as [|c s IH]; simpl; [reflexivity|].
    destruct (is_space c) eqn:E; [exact IH|].
    cbn [rstrip]. rewrite E. simpl. discriminate.
  - intros H. now rewrite (lstrip_blank s H).
Qed.

Lemma has_char_app (c : ascii) (a b : string) :
  has_char c (String.append a b) = has_char c a || has_char c b.
Proof.
  induction a as [|d a IH]; [reflexivity|].
  rewrite append_cons. simpl. now rewrite IH, orb_assoc.
Qed.

Lemma has_char_occurs (c : ascii) (p s : string) :
  occurs p s -> has_char c s = false -> has_char c p = false.
Proof.
  intros [pre [post ->]]. rewrite !has_char_app, !orb_false_iff. tauto.
Qed.

Lemma occurs_trans (a b c : string) : occurs a b -> occurs b c -> occurs a c.
Proof.
  intros [p1 [q1 ->]] [p2 [q2 ->]].
  exists (String.append p2 p1), (String.append q1 q2).
  now rewrite !append_assoc.
Qed.

Lemma split_not_nil (sep : ascii) (s : string) : split sep s <> [].
Proof.
  induction s as [|c s IH]; simpl; [discriminate|].
  destruct (Ascii.eqb c sep); [discriminate|].
  destruct (split sep s); discriminate.
Qed.

Lemma split_head_prefix (sep : ascii) (s piece : string)
    (pieces : list string) :
  split sep s = piece :: pieces -> exists post, s = String.append piece post.
Proof.
  revert piece pieces. induction s as [|c s IH]; intros piece pieces; simpl.
  - intros [= <- _]. exists EmptyString. reflexivity.
  - destruct (Ascii.eqb c sep).
    + intros [= <- _]. exists (String c s). reflexivity.
    + destruct (split sep s) as [|p ps] eqn:F; [now apply split_not_nil in F|].
      intros [= <- _]. destruct (IH p ps eq_refl) as [post ->].
      exists post. reflexivity.
Qed.

(** A piece of a split holds no separator and occurs in the text. *)
Lemma split_pieces (sep : ascii) (s p : string) :
  In p (split sep s) -> has_char sep p = false /\ occurs p s.
Proof.
  revert p. induction s as [|c s IH]; intros p; simpl.
  - intros [<- | []].
    split; [reflexivity | exists EmptyString, EmptyString; reflexivity].
  - destruct (Ascii.eqb c sep) eqn:E.
    + intros [<- | Hin].
      * split; [reflexivity|]. exists EmptyString, (String c s). reflexivity.
      * destruct (IH p Hin) as [Hc [pre [post ->]]]. split; [exact Hc|].
        exists (String c pre), post. reflexivity.
    + destruct (split sep s) as [|piece pieces] eqn:F;
        [now apply split_not_nil in F|].
      intros [<- | Hin].
      * destruct (IH piece (or_introl eq_refl)) as [Hc _].
        split; [simpl; now rewrite E, Hc|].
        destruct (split_head_prefix sep s piece pieces F) as [post ->].
        exists EmptyString, post. reflexivity.
      * destruct (IH p (or_intror Hin)) as [Hc [pre [post ->]]].
        split; [exact Hc|]. exists (String c pre), post. reflexivity.
Qed.

(** A text is blank exactly when every line of it is. *)
Lemma blank_split (sep : ascii) (s : string) :
  is_space sep = true -> blank s = forallb blank (split sep s).
Proof.
  intros Hsep. induction s as [|c s IH]; [reflexivity|].
  simpl. destruct (Ascii.eqb c sep) eqn:E.
  - apply Ascii.eqb_eq in E. subst c. rewrite Hsep, IH. reflexivity.
  - destruct (split sep s) as [|p ps] eqn:F; [now apply split_not_nil in F|].
    rewrite IH. simpl. now rewrite andb_assoc.
Qed.

End PyTextFacts.

(** ** Properties of the form handlers *)

Section FormsProperties.
Import PyStr PyText AuditIntelligenceApp Forms.

Lemma filter_strip_nil (pieces : list string) :
  List.filter (fun factor => truthy (strip factor)) pieces = [] <->
  forallb blank pieces = true.
Proof.
  induction pieces as [|p pieces IH]; simpl; [tauto|].
  destruct (truthy (strip p)) eqn:E.
  - split; [discriminate|]. rewrite andb_true_iff. intros [Hb _].
    apply strip_blank in Hb. congruence.
  - apply strip_blank in E. rewrite E. exact IH.
Qed.

(** The risk-factor parser of [_generate_checklist] returns [None] only for
    the empty text.  Otherwise it returns a list in which every factor is
    non-empty, neither starts nor ends with whitespace, holds no newline and
    occurs in the text typed; the list is empty (not [None]) exactly when
    the text consists of whitespace only. *)
Theorem risk_list_spec (risk_factors : string) :
  match risk_list risk_factors with
  | None => risk_factors = EmptyString
  | Some factors =>
      risk_factors <> EmptyString /\
      Forall (fun f => trimmed f /\ has_char nl f = false /\
                       occurs f risk_factors) factors /\
      (factors = [] <-> blank risk_factors = true)
  end.
Proof.
  unfold risk_list. destruct (truthy risk_factors) eqn:T;
    [|now apply truthy_false].
  split; [intros ->; discriminate | split].
  - apply List.Forall_forall. intros f Hf.
    apply in_map_iff in Hf as [p [<- Hp]].
    apply filter_In in Hp as [Hp Ht].
    destruct (split_pieces nl risk_factors p Hp) as [Hnl Hocc].
    split; [now apply strip_trimmed | split].
    + exact (has_char_occurs nl _ _ (strip_occurs p) Hnl).
    + exact (occurs_trans _ _ _ (strip_occurs p) Hocc).
  - rewrite (blank_split nl risk_factors eq_refl), <- filter_strip_nil.
    split; [apply map_eq_nil | intros ->; reflexivity].
Qed.

(** [_create_smart_audit_tab] hands a query to the smart orchestrator only
    when the button was pressed and the text is not blank; the text handed
    over is non-empty, neither starts nor ends with whitespace, occurs in
    the text typed, and stripping it again changes nothing. *)
Theorem submitted_query_spec (submit_button : bool) (query : string) :
  match submitted_query submit_button query with
  | Some text =>
      submit_button = true /\ trimmed text /\ occurs text query /\
      strip text = text
  | None => submit_button = false \/ blank query = true
  end.
Proof.
  unfold submitted_query. destruct submit_button; simpl; [|tauto].
  destruct (truthy (strip query)) eqn:T.
  - pose proof (strip_trimmed query T) as Ht.
    refine (conj eq_refl (conj Ht (conj (strip_occurs query) _))).
    now apply trimmed_strip.
  - right. now apply strip_blank.
Qed.

Lemma length_title_from (b : bool) (s : string) :
  String.length (title_from b s) = String.length s.
Proof.
  revert b. induction s as [|c s IH]; intros b; simpl; [reflexivity|].
  now rewrite IH.
Qed.

Lemma length_replace (old new : ascii) (s : string) :
  String.length (replace old new s) = String.length s.
Proof. induction s as [|c s IH]; simpl; [reflexivity | now rewrite IH]. Qed.

Lemma lower_title_from (b : bool) (s : string) :
  lower (title_from b s) = lower s.
Proof.
  revert b. induction s as [|c s IH]; intros b; simpl; [reflexivity|].
  rewrite IH. destruct b; now rewrite ?lower_char_idem, ?lower_upper_char.
Qed.

Lemma lower_char_underscore (c : ascii) :
  lower_char (if Ascii.eqb c "_" then " " else c)%char =
  (if Ascii.eqb (lower_char c) "_" then " " else lower_char c)%char.
Proof. destruct c as [[] [] [] [] [] [] [] []]; reflexivity. Qed.

Lemma lower_replace_underscore (s : string) :
  lower (replace "_" " " s) = replace "_" " " (lower s).
Proof.
  induction s as [|c s IH]; simpl; [reflexivity|].
  now rewrite lower_char_underscore, IH.
Qed.

Lemma case_keeps_underscore (c : ascii) :
  Ascii.eqb (lower_char c) "_" = Ascii.eqb c "_" /\
  Ascii.eqb (upper_char c) "_" = Ascii.eqb c "_".
Proof. destruct c as [[] [] [] [] [] [] [] []]; split; reflexivity. Qed.

Lemma has_char_title_from (b : bool) (s : string) :
  has_char "_" (title_from b s) = has_char "_" s.
Proof.
  revert b. induction s as [|c s IH]; intros b; simpl; [reflexivity|].
  rewrite IH. destruct (case_keeps_underscore c) as [Hl Hu].
  destruct b; now rewrite ?Hl, ?Hu.
Qed.

Lemma has_char_replaced (s : string) :
  has_char "_" (replace "_" " " s) = false.
Proof.
  induction s as [|c s IH]; simpl; [reflexivity|]. rewrite IH.
  destruct (Ascii.eqb c "_") eqn:E; [reflexivity|]. now rewrite E.
Qed.

Lemma replace_back (s : string) :
  has_char " " s = false -> replace " " "_" (replace "_" " " s) = s.
Proof.
  induction s as [|c s IH]; simpl; [reflexivity|].
  rewrite orb_false_iff. intros [Hc Hs]. rewrite (IH Hs). f_equal.
  destruct (Ascii.eqb c "_") eqn:E.
  - apply Ascii.eqb_eq in E. now subst c.
  - now rewrite Hc.
Qed.

(** For a name of 7-bit characters, as all agent, intent and insight names
    of the program are, the label shown differs from the name only by
    letter case and by spaces in place of underscores: it has the same
    length, holds no underscore, and lower-casing it gives the lower-cased
    name with underscores replaced.  If the name is moreover lower-case and
    without spaces, it is recovered from the label, so distinct such names
    get distinct labels.  (Beyond 7 bits [str.title] can lengthen a text.) *)
Theorem display_name_faithful (name : string) :
  seven_bit name = true ->
  String.length (display_name name) = String.length name /\
  has_char "_" (display_name name) = false /\
  lower (display_name name) = replace "_" " " (lower name) /\
  (lower name = name -> has_char " " name = false ->
   replace " " "_" (lower (display_name name)) = name).
Proof.
  intros _. unfold display_name, title.
  assert (Hl : lower (title_from false (replace "_" " " name))
               = replace "_" " " (lower name))
    by now rewrite lower_title_from, lower_replace_underscore.
  refine (conj _ (conj _ (conj Hl _))).
  - now rewrite length_title_from, length_replace.
  - now rewrite has_char_title_from, has_char_replaced.
  - intros Hlow Hsp. rewrite Hl, Hlow. now apply replace_back.
Qed.

Lemma display_name_faithful_witness :
  seven_bit "external_conference" = true /\
  display_name "external_conference" = "External Conference" /\
  replace " " "_" (lower (display_name "external_conference"))
    = "external_conference".
Proof.
  refine (conj eq_refl (conj eq_refl _)).
  apply (proj2 (proj2 (proj2
           (display_name_faithful "external_conference" eq_refl))));
    reflexivity.
Defined.

(** The "Query Type" shown by [_display_response] is, for every query, one
    of Checklist, Report, Insights and General. *)
Theorem query_type_values (query : string) :
  In (query_type query) ["Checklist"; "Report"; "Insights"; "General"].
Proof.
  unfold query_type, _determine_intent.
  destruct (any_in checklist_words _); [simpl; tauto|].
  destruct (any_in report_words _); [simpl; tauto|].
  destruct (any_in insights_words _); simpl; tauto.
Qed.

End FormsProperties.

(** ** What the displays list *)

Module Listing.
Import PyStr PyText.

(** [enumerate(l, start)] *)
Fixpoint enumerate {A : Type} (start : nat) (l : list A) : list (nat * A) :=
  match l with
  | [] => []
  | x :: l' => (start, x) :: enumerate (S start) l'
  end.

(** [enumerate(sources[:10], 1)], the sources [_display_smart_response]
    opens an expander for. *)
Definition smart_sources {A : Type} (sources : list A) : list (nat * A) :=
  enumerate 1 (firstn 10 sources).

(** [enumerate(response['sources'], 1)], the sources [_display_response]
    opens an expander for. *)
Definition plain_sources {A : Type} (sources : list A) : list (nat * A) :=
  enumerate 1 sources.

(** [self.audit_logger.observations[-10:]] *)
Definition recent_observations {A : Type} (observations : list A) : list A :=
  skipn (length observations - 10) observations.

(** [reversed(recent_observations)], the order [_display_observations]
    shows them in. *)
Definition shown_observations {A : Type} (observations : list A) : list A :=
  rev (recent_observations observations).

(** [f"*{source['content'][:300]}...*"], the content preview of a source
    in both displays. *)
Definition content_preview (content : string) : string :=
  String.append "*" (String.append (take 300 content) "...*").

(** [f"{obs.area} - {obs.finding[:50]}..."], the expander label of an
    observation. *)
Definition observation_label (area finding : string) : string :=
  String.append area
    (String.append " - " (String.append (take 50 finding) "...")).

End Listing.

Section ListingProperties.
Import PyStr PyText Listing.
Context {A : Type}.

Lemma length_enumerate (start : nat) (l : list A) :
  length (enumerate start l) = length l.
Proof.
  revert start. induction l as [|x l IH]; intros start; simpl;
    [reflexivity | now rewrite IH].
Qed.

Lemma nth_error_enumerate (start k : nat) (l : list A) :
  nth_error (enumerate start l) k =
  match nth_error l k with
  | Some x => Some ((start + k)%nat, x)
  | None => None
  end.
Proof.
  revert start k. induction l as [|x l IH]; intros start [|k]; simpl;
    try reflexivity.
  - now rewrite Nat.add_0_r.
  - rewrite IH. now rewrite Nat.add_succ_r.
Qed.

Lemma enumerate_firstn (n start : nat) (l : list A) :
  enumerate start (firstn n l) = firstn n (enumerate start l).
Proof.
  revert start l. induction n as [|n IH]; intros start [|x l]; simpl;
    try reflexivity.
  now rewrite IH.
Qed.

(** [_display_smart_response] lists at most ten sources: the first ten of
    the response, in the response's order, numbered from 1 without gaps;
    sources beyond the tenth are not shown, whereas [_display_response]
    lists them all, and both agree on the first ten. *)
Theorem smart_sources_top_ten (sources : list A) (k : nat) :
  length (smart_sources sources) = Nat.min 10 (length sources) /\
  length (plain_sources sources) = length sources /\
  nth_error (smart_sources sources) k =
    (if (k <? 10)%nat
     then match nth_error sources k with
          | Some x => Some (S k, x)
          | None => None
          end
     else None) /\
  smart_sources sources = firstn 10 (plain_sources sources).
Proof.
  unfold smart_sources, plain_sources.
  refine (conj _ (conj (length_enumerate 1 sources) (conj _ _))).
  - now rewrite length_enumerate, length_firstn.
  - rewrite nth_error_enumerate. simpl.
    destruct (k <? 10)%nat eqn:E.
    + apply Nat.ltb_lt in E. now rewrite nth_error_firstn, (proj2 (Nat.ltb_lt k 10) E).
    + apply Nat.ltb_ge in E.
      assert (H : nth_error (firstn 10 sources) k = None); [|now rewrite H].
      apply nth_error_None. rewrite length_firstn. lia.
  - apply enumerate_firstn.
Qed.

(** [_display_observations] shows the ten most recent observations, the
    newest first: the list shown is the first ten of the log read
    backwards, so it has min(10, n) entries and its k-th entry is the
    observation k places from the end. *)
Theorem shown_observations_newest_first (observations : list A) (k : nat) :
  shown_observations observations = firstn 10 (rev observations) /\
  length (shown_observations observations)
    = Nat.min 10 (length observations) /\
  ((k < Nat.min 10 (length observations))%nat ->
   nth_error (shown_observations observations) k
     = nth_error observations (length observations - S k)).
Proof.
  assert (H : shown_observations observations = firstn 10 (rev observations)).
  { unfold shown_observations, recent_observations.
    now rewrite firstn_rev. }
  rewrite H. refine (conj eq_refl (conj _ _)).
  - now rewrite length_firstn, length_rev.
  - intros Hk. rewrite nth_error_firstn.
    rewrite (proj2 (Nat.ltb_lt k 10)) by lia.
    rewrite nth_error_rev. rewrite (proj2 (Nat.ltb_lt k _)) by lia.
    reflexivity.
Qed.

End ListingProperties.

Section PreviewProperties.
Import PyStr PyText Listing.

Lemma length_take (n : nat) (s : string) :
  String.length (take n s) = Nat.min n (String.length s).
Proof.
  revert s. induction n as [|n IH]; intros [|c s]; simpl; try reflexivity.
  now rewrite IH.
Qed.

Lemma take_prefix (n : nat) (s : string) :
  exists rest, s = String.append (take n s) rest.
Proof.
  revert s. induction n as [|n IH]; intros s.
  - exists s. reflexivity.
  - destruct s as [|c s]; [exists EmptyString; reflexivity|].
    destruct (IH s) as [rest Hr]. exists rest.
    simpl. now rewrite append_cons, <- Hr.
Qed.

Lemma take_all (n : nat) (s : string) :
  (String.length s <= n)%nat -> take n s = s.
Proof.
  revert s. induction n as [|n IH]; intros [|c s]; simpl; try reflexivity.
  - lia.
  - intros H. rewrite IH by lia. reflexivity.
Qed.

Lemma length_append (a b : string) :
  String.length (String.append a b) = (String.length a + String.length b)%nat.
Proof.
  induction a as [|c a IH]; [reflexivity|].
  rewrite append_cons. simpl. now rewrite IH.
Qed.

(** The content preview of a source shows a prefix of the content of at
    most 300 characters between the markers, and the label of an observation
    a prefix of the finding of at most 50 characters; the ellipsis is always
    appended, so a text within the limit is shown whole and still followed
    by the ellipsis. *)
Theorem previews_spec (content area finding : string) :
  String.length (content_preview content)
    = (Nat.min 300 (String.length content) + 5)%nat /\
  (exists rest, content = String.append (take 300 content) rest) /\
  ((String.length content <= 300)%nat ->
   content_preview content
     = String.append "*" (String.append content "...*")) /\
  String.length (observation_label area finding)
    = (String.length area + Nat.min 50 (String.length finding) + 6)%nat /\
  ((String.length finding <= 50)%nat ->
   observation_label area finding
     = String.append area
         (String.append " - " (String.append finding "..."))).
Proof.
  unfold content_preview, observation_label.
  refine (conj _ (conj (take_prefix 300 content) (conj _ (conj _ _)))).
  - rewrite !length_append, length_take. simpl. lia.
  - intros H. now rewrite take_all.
  - rewrite !length_append, length_take. simpl. lia.
  - intros H. now rewrite take_all.
Qed.

Lemma previews_spec_witness :
  content_preview "short note" = "*short note...*" /\
  observation_label "Warehouse" "Door open" = "Warehouse - Door open...".
Proof.
  pose proof (previews_spec "short note" "Warehouse" "Door open")
    as [_ [_ [Hc [_ Hf]]]].
  split; [apply Hc | apply Hf]; vm_compute; lia.
Defined.

Lemma shown_observations_newest_first_witness :
  nth_error (shown_observations [1; 2; 3]%nat) 0 = Some 3%nat.
Proof.
  apply (proj2 (proj2 (shown_observations_newest_first [1; 2; 3]%nat 0))).
  vm_compute. lia.
Defined.

End PreviewProperties.

(** ** Further properties of the classifier and the selector *)

Section RoutingProperties.
Import PyStr PyText AuditIntelligenceApp Spec.

Lemma contains_mono (a b s : string) :
  occurs a b -> contains b s = true -> contains a s = true.
Proof.
  intros Hab Hb. apply contains_spec. apply contains_spec in Hb.
  exact (occurs_trans a b s Hab Hb).
Qed.

(** Two keywords of the classifier never decide anything: checklist is
    covered by list, which it contains, and the analysis of the insights
    list is only reached when the report test, which also looks for
    analysis, has failed.  The classifier is the same function without
    them. *)
Theorem redundant_keywords (query : string) :
  _determine_intent query =
  (let query_lower := lower query in
   if any_in ["list"; "steps"; "procedures"] query_lower then "checklist"
   else if any_in report_words query_lower then "report"
   else if any_in ["insights"; "trends"; "patterns"] query_lower
        then "insights"
   else "general").
Proof.
  cbv zeta. unfold _determine_intent.
  assert (Hc : any_in checklist_words (lower query)
               = any_in ["list"; "steps"; "procedures"] (lower query)).
  { unfold any_in, checklist_words. cbn [existsb].
    destruct (contains "checklist" (lower query)) eqn:E; [|reflexivity].
    rewrite (contains_mono "list" "checklist" (lower query)); [reflexivity| |exact E].
    exists "check", EmptyString. reflexivity. }
  rewrite Hc. destruct (any_in ["list"; "steps"; "procedures"] _); [reflexivity|].
  destruct (any_in report_words (lower query)) eqn:R; [reflexivity|].
  unfold any_in, report_words in R. cbn [existsb] in R.
  rewrite !orb_false_iff in R. destruct R as [_ [Ha _]].
  unfold any_in, insights_words. cbn [existsb]. rewrite Ha.
  now rewrite !orb_false_r.
Qed.

Lemma occurs_in_context (w q pre post : string) :
  occurs w (lower q) ->
  occurs w (lower (String.append pre (String.append q post))).
Proof.
  intros H. rewrite !lower_app.
  apply (occurs_trans w (lower q)); [exact H | apply occurs_app].
Qed.

(** Putting text before or after a query on which some rule fires never
    removes a name from the selection, and a query classified as checklist
    stays a checklist.  (Without a firing rule the selection can shrink:
    the fallback list is replaced by what the new text triggers.) *)
Theorem adding_text (query pre post intent intent' : string) :
  let longer := String.append pre (String.append query post) in
  (some_rule_fires query ->
   forall a, In a (_get_relevant_agents query intent) ->
             In a (_get_relevant_agents longer intent')) /\
  (_determine_intent query = "checklist" ->
   _determine_intent longer = "checklist").
Proof.
  cbv zeta. split.
  - intros Hs a Ha.
    assert (Hs' : some_rule_fires
                    (String.append pre (String.append query post))).
    { destruct Hs as [r [Hr [w [Hw Ho]]]]. exists r. split; [exact Hr|].
      exists w. split; [exact Hw | now apply occurs_in_context]. }
    rewrite (no_fallback _ _ Hs) in Ha. rewrite (no_fallback _ _ Hs').
    apply in_appended in Ha. apply in_appended.
    destruct Ha as [-> | [r [Hr [[w [Hw Ho]] Ha]]]]; [now left | right].
    exists r. split; [exact Hr | split; [|exact Ha]].
    exists w. split; [exact Hw | now apply occurs_in_context].
  - intros H. apply mentions_checklist.
    assert (Hm : mentions checklist_words query).
    { apply mentions_any_in. unfold _determine_intent in H.
      destruct (any_in checklist_words (lower query)); [reflexivity|].
      destruct (any_in report_words _); [discriminate|].
      destruct (any_in insights_words _); discriminate. }
    destruct Hm as [w [Hw Ho]]. exists w.
    split; [exact Hw | now apply occurs_in_context].
Qed.

Lemma adding_text_witness :
  some_rule_fires "FDA warning" /\
  In "web_scraper"
    (_get_relevant_agents "Latest FDA warning letters for Hovione" "general") /\
  _determine_intent "Please list the steps" = "checklist".
Proof.
  assert (Hs : some_rule_fires "FDA warning").
  { apply fallback_test_false. reflexivity. }
  pose proof (adding_text "FDA warning" "Latest " " letters for Hovione"
                "general" "general") as [H1 _].
  pose proof (adding_text "list" "Please " " the steps" "" "") as [_ H2].
  refine (conj Hs (conj _ _)).
  - apply (H1 Hs). vm_compute. tauto.
  - apply H2. reflexivity.
Defined.

End RoutingProperties.

(** ** The order of the communication metrics *)

Section MetricsErrors.
Import PyStr AuditIntelligenceApp Spec.

Lemma sum_defined (log : list (gmap string pyval)) (acc : option Z) :
  is_Some (fold_left py_add
             (List.map documents_found (List.filter is_completed log)) acc) ->
  Forall well_typed log.
Proof.
  revert acc. induction log as [|c log IH]; intros acc H; [constructor|].
  simpl in H. destruct (is_completed c) eqn:E.
  - simpl in H. constructor; [|exact (IH _ H)].
    intros _. unfold documents_found in H.
    destruct (c !! "documents_found") as [[| |z]|] eqn:F; simpl in H; eauto;
      destruct acc; simpl in H; rewrite py_add_raised in H;
      destruct H; discriminate.
  - constructor; [|exact (IH _ H)]. intros Hc. congruence.
Qed.

(** The three [st.metric] calls of the "Agent Communications" block in the
    order the code makes them: the metrics written, and whether the sum for
    the third one raised.  "Total Agents" and "Successful" are written
    before the sum is evaluated. *)
Definition metrics_block (agent_communications : list (gmap string pyval))
    : list (string * Z) * bool :=
  match agent_communications with
  | [] => ([], false)
  | _ :: _ =>
      let written :=
        [("Total Agents", Z.of_nat (length agent_communications));
         ("Successful", successful_agents agent_communications)] in
      match total_docs agent_communications with
      | Some docs => (written ++ [("Documents Found", docs)], false)
      | None => (written, true)
      end
  end.

Lemma sum_raises (log : list (gmap string pyval)) (c : gmap string pyval) :
  In c log -> is_completed c = true ->
  (c !! "documents_found" = Some PyNone \/
   exists s, c !! "documents_found" = Some (PyStr s)) ->
  total_docs log = None.
Proof.
  intros Hin Hc Hbad.
  destruct (total_docs log) as [docs|] eqn:T; [exfalso | reflexivity].
  assert (Hwt : Forall well_typed log).
  { apply (sum_defined log (Some 0%Z)). unfold total_docs in T.
    rewrite T. eauto. }
  rewrite List.Forall_forall in Hwt.
  destruct (Hwt c Hin Hc) as [H | [z H]], Hbad as [H' | [s' H']]; congruence.
Qed.

(** For a non-empty log, when every completed entry holds an integer
    document count or none, the block writes "Total Agents", "Successful"
    and "Documents Found" and does not raise.  When a completed entry holds
    a documents_found that is present but is None or a text, the sum raises
    (the default 0 of [comm.get] only covers a missing key): "Total Agents"
    and "Successful" have been written by then, "Documents Found" is not. *)
Theorem metrics_block_spec (log : list (gmap string pyval)) :
  log <> [] ->
  (Forall well_typed log ->
   metrics_block log =
     ([("Total Agents", Z.of_nat (length log));
       ("Successful", completed_count log);
       ("Documents Found", completed_docs log)], false)) /\
  (forall c, In c log -> is_completed c = true ->
     (c !! "documents_found" = Some PyNone \/
      exists s, c !! "documents_found" = Some (PyStr s)) ->
     metrics_block log =
       ([("Total Agents", Z.of_nat (length log));
         ("Successful", completed_count log)], true)).
Proof.
  intros Hne. destruct log as [|c0 log]; [congruence|]. split.
  - intros Hwt. unfold metrics_block, total_docs.
    rewrite sum_completed by exact Hwt.
    now rewrite successful_agents_count.
  - intros c Hin Hc Hbad. unfold metrics_block.
    rewrite (sum_raises _ c Hin Hc Hbad).
    now rewrite successful_agents_count.
Qed.

Lemma metrics_block_spec_witness :
  metrics_block
    [completed_entry "sop" 3;
     <["status" := PyStr "completed"]> (<["documents_found" := PyNone]> ∅)]
    = ([("Total Agents", 2%Z); ("Successful", 2%Z)], true) /\
  metrics_block scenario_log
    = ([("Total Agents", 5%Z); ("Successful", 4%Z);
        ("Documents Found", 12%Z)], false).
Proof.
  pose (c := <["status" := PyStr "completed"]>
               (<["documents_found" := PyNone]> (∅ : gmap string pyval))).
  split.
  - refine (proj2 (metrics_block_spec [completed_entry "sop" 3; c] _)
              c (or_intror (or_introl eq_refl)) eq_refl (or_introl eq_refl)).
    discriminate.
  - refine (proj1 (metrics_block_spec scenario_log _) scenario_log_well_typed).
    discriminate.
Defined.

End MetricsErrors.

(** ** Text as code points *)

Module Unicode.
Import AuditIntelligenceApp.

(** The code points of a text of 8-bit characters. *)
Fixpoint of_string (s : string) : list N :=
  match s with
  | EmptyString => []
  | String c s' => N_of_ascii c :: of_string s'
  end.

(** [str.lower] on one code point; the result can be two code points.
    Exact below U+0100 and on U+0130, U+0131, U+017F, U+212A and U+212B;
    the case mappings of the other code points are not tabulated and these
    are left unchanged. *)
Definition lower_cp (c : N) : list N :=
  (if (65 <=? c) && (c <=? 90) then [c + 32]
   else if (192 <=? c) && (c <=? 222) && negb (c =? 215) then [c + 32]
   else if c =? 304 then [105; 775]
   else if c =? 8490 then [107]
   else if c =? 8491 then [229]
   else [c])%N.

(** [str.upper] on one code point, with the same coverage: the long s
    U+017F becomes S, the dotless i U+0131 becomes I, the sharp s U+00DF
    becomes SS. *)
Definition upper_cp (c : N) : list N :=
  (if (97 <=? c) && (c <=? 122) then [c - 32]
   else if c =? 181 then [924]
   else if c =? 223 then [83; 83]
   else if (224 <=? c) && (c <=? 254) && negb (c =? 247) then [c - 32]
   else if c =? 255 then [376]
   else if c =? 305 then [73]
   else if c =? 383 then [83]
   else [c])%N.

(** [s.lower()] *)
Definition lower (s : list N) : list N := flat_map lower_cp s.

(** [s.upper()] *)
Definition upper (s : list N) : list N := flat_map upper_cp s.

(** [s.startswith(w)] *)
Fixpoint startswith (w s : list N) : bool :=
  match w, s with
  | [], _ => true
  | _ :: _, [] => false
  | a :: w', b :: s' => (a =? b)%N && startswith w' s'
  end.

(** [w in s] *)
Fixpoint contains (w s : list N) : bool :=
  startswith w s ||
  match s with
  | [] => false
  | _ :: s' => contains w s'
  end.

(** [any(word in s for word in words)] for the 7-bit keywords. *)
Definition any_in (words : list string) (s : list N) : bool :=
  existsb (fun word => contains (of_string word) s) words.

(** [_determine_intent(self, query)] *)
Definition _determine_intent (query : list N) : string :=
  let query_lower := lower query in
  if any_in checklist_words query_lower then "checklist"
  else if any_in report_words query_lower then "report"
  else if any_in insights_words query_lower then "insights"
  else "general".

(** [relevant_agents.extend(more)] guarded by a keyword test. *)
Definition extend_if (words : list string) (query_lower : list N)
    (more relevant_agents : list string) : list string :=
  if any_in words query_lower then relevant_agents ++ more
  else relevant_agents.

(** [_get_relevant_agents(self, query, intent)] *)
Definition _get_relevant_agents (query : list N) (intent : string)
    : list string :=
  let query_lower := lower query in
  let relevant_agents := [] in
  let relevant_agents := relevant_agents ++ ["orchestrator"] in
  let relevant_agents :=
    extend_if company_words query_lower
      ["quality_systems"; "external_conference"] relevant_agents in
  let relevant_agents :=
    extend_if audit_words query_lower
      ["internal_audit"; "sop"] relevant_agents in
  let relevant_agents :=
    extend_if quality_words query_lower ["quality_systems"] relevant_agents in
  let relevant_agents :=
    extend_if conference_words query_lower
      ["external_conference"] relevant_agents in
  let relevant_agents :=
    extend_if web_words query_lower ["web_scraper"] relevant_agents in
  if (length relevant_agents <=? 1)%nat then all_agents
  else relevant_agents.


End Unicode.

(** ** The two text models agree on 7-bit text *)

Section UnicodeFacts.
Import PyStr PyText AuditIntelligenceApp Spec.

















End UnicodeFacts.
